(** * st_theresa_medical_center.js: retrying AJAX executor, UI helpers, event binder

    A shallow embedding of [static/js/st_theresa_medical_center.js].

    Conventions of the embedding.
    - JavaScript values that travel through the code (response bodies, error
      objects, callback arguments) are values of [Js.JsVal]; numbers are
      integers.
    - The promise chain of [AjaxHandler.request] is run to completion: a
      promise is represented by the way it settles ([Js.Settled]) together
      with the trace of observable events produced on the way and the state
      the caller's callbacks act on.  [then], [catch] and [finally] follow the
      ECMAScript promise semantics the source is written against (its JSDoc
      declares [Promise<Object>]): an exception raised inside a handler
      rejects the derived promise, and [finally] passes the settlement
      through unless its callback throws.
    - A rejection carries the list of arguments handed to the rejection
      handler, because the source's handler reads three of them
      ([xhr], [status], [error]); a missing argument is [undefined].
    - [$.ajax] and the server behind it are not part of the repository: they
      are a parameter ([net]).  Strings are strings of bytes (UTF-8).
    - The page is a flat list of nodes; nesting of elements is not modelled. *)

From Stdlib Require Import ZArith String Ascii List Lia Bool.
From stdpp Require Import gmap strings list fin_maps.

Set Warnings "-register-all".
Local Open Scope string_scope.
Local Open Scope list_scope.
Local Open Scope Z_scope.

(* ===================================================================== *)
(** * JavaScript values *)
(* ===================================================================== *)

Module Js.

Inductive JsVal : Type :=
| JUndefined
| JNull
| JBool (b : bool)
| JNum (n : Z)
| JStr (s : string)
| JArr (items : list JsVal)
| JObj (props : list (string * JsVal)).

(** Result of evaluating an expression that may raise. *)
Inductive Completion (A : Type) : Type :=
| Normal (a : A)
| Throw (e : JsVal).
Arguments Normal {A} a.
Arguments Throw {A} e.

(** How a promise settles.  [Rejected args]: the arguments passed to the
    rejection handler. *)
Inductive Settled : Type :=
| Fulfilled (v : JsVal)
| Rejected (args : list JsVal).

(** [typeof v] *)
Definition typeof (v : JsVal) : string :=
  match v with
  | JUndefined => "undefined"
  | JNull => "object"
  | JBool _ => "boolean"
  | JNum _ => "number"
  | JStr _ => "string"
  | JArr _ => "object"
  | JObj _ => "object"
  end.

(** Own property of an object literal / parsed JSON object. *)
Fixpoint own_prop (k : string) (props : list (string * JsVal)) : option JsVal :=
  match props with
  | [] => None
  | (k', v) :: rest => if String.eqb k k' then Some v else own_prop k rest
  end.

Definition TypeError : JsVal := JObj [("name", JStr "TypeError")].

(** [v.k] for a name [k] that is not defined on the built-in prototypes
    (the code reads [success], [message], [data] and [html] only): reading
    a property of [null] or [undefined] raises a TypeError, a missing
    property reads as [undefined]. *)
Definition get_prop (v : JsVal) (k : string) : Completion JsVal :=
  match v with
  | JUndefined | JNull => Throw TypeError
  | JObj props =>
      match own_prop k props with
      | Some x => Normal x
      | None => Normal JUndefined
      end
  | _ => Normal JUndefined
  end.

(** [v === undefined] *)
Definition is_undefined (v : JsVal) : bool :=
  match v with JUndefined => true | _ => false end.



(** Argument [i] of a handler called with [args]. *)
Definition arg (i : nat) (args : list JsVal) : JsVal := nth i args JUndefined.

End Js.
Export Js.

(* ===================================================================== *)
(** * class AjaxHandler *)
(* ===================================================================== *)

Module Ajax.

(** ** Strings: the pieces of [getCsrfToken] *)

(** [s.split(sep)] for a one-character separator. *)
Fixpoint split (sep : ascii) (s : string) : list string :=
  match s with
  | EmptyString => [EmptyString]
  | String c rest =>
      if Ascii.eqb c sep then EmptyString :: split sep rest
      else match split sep rest with
           | [] => [String c EmptyString]
           | w :: ws => String c w :: ws
           end
  end.

(** White space removed by [trim] (the ASCII part of it). *)
Definition is_space (c : ascii) : bool :=
  let n := nat_of_ascii c in
  (Nat.eqb n 32 || (Nat.leb 9 n && Nat.leb n 13))%bool.

Fixpoint trim_start (s : string) : string :=
  match s with
  | String c rest => if is_space c then trim_start rest else s
  | EmptyString => EmptyString
  end.

Fixpoint trim_end (s : string) : string :=
  match s with
  | EmptyString => EmptyString
  | String c rest =>
      match trim_end rest with
      | EmptyString => if is_space c then EmptyString else String c EmptyString
      | r => String c r
      end
  end.

Definition trim (s : string) : string := trim_end (trim_start s).

(** [c.indexOf(name) === 0] *)
Definition index_of_is_0 (name c : string) : bool := String.prefix name c.

(** [c.substring(start, c.length)] *)
Definition substring_from (start : nat) (c : string) : string :=
  String.substring start (String.length c - start) c.

(** The [for] loop of [getCsrfToken] over the split cookie string. *)
Fixpoint find_cookie (name : string) (cookies : list string) : string :=
  match cookies with
  | [] => ""
  | ci :: rest =>
      let c := trim ci in
      if index_of_is_0 name c then substring_from (String.length name) c
      else find_cookie name rest
  end.

(** ** [decodeURIComponent] *)

Definition hex_value (c : ascii) : option nat :=
  let n := nat_of_ascii c in
  if (Nat.leb 48 n && Nat.leb n 57)%bool then Some (n - 48)%nat
  else if (Nat.leb 65 n && Nat.leb n 70)%bool then Some (n - 55)%nat
  else if (Nat.leb 97 n && Nat.leb n 102)%bool then Some (n - 87)%nat
  else None.

(** The string cut into plain characters and escapes [%XX]; [Bad] is a
    percent sign that two hexadecimal digits do not follow. *)
Inductive Token : Type :=
| Lit (c : ascii)
| Esc (byte : nat)
| Bad.

Fixpoint tokens (s : string) : list Token :=
  match s with
  | EmptyString => []
  | String c rest =>
      if Ascii.eqb c "%" then
        match rest with
        | String h (String l rest') =>
            match hex_value h, hex_value l with
            | Some a, Some b => Esc (16 * a + b) :: tokens rest'
            | _, _ => [Bad]
            end
        | _ => [Bad]
        end
      else Lit c :: tokens rest
  end.

Definition between (lo hi b : nat) : bool := (Nat.leb lo b && Nat.leb b hi)%bool.

(** A continuation byte of UTF-8. *)
Definition continuation (b : nat) : bool := between 128 191 b.

(** The range of the second byte after the first byte [b] of a sequence of
    three, and of four: no overlong forms, no surrogates, nothing above
    U+10FFFF. *)
Definition second_of_3 (b b2 : nat) : bool :=
  if Nat.eqb b 224 then between 160 191 b2
  else if Nat.eqb b 237 then between 128 159 b2
  else continuation b2.

Definition second_of_4 (b b2 : nat) : bool :=
  if Nat.eqb b 240 then between 144 191 b2
  else if Nat.eqb b 244 then between 128 143 b2
  else continuation b2.

Definition emit (bytes : list nat) (rest : option string) : option string :=
  match rest with
  | Some s => Some (fold_right (fun b acc => String (ascii_of_nat b) acc) s bytes)
  | None => None
  end.

(** Escapes are replaced by the character they encode; an escaped byte above
    127 must start a well-formed UTF-8 sequence whose other bytes are escaped
    too.  [None] is URIError. *)
Fixpoint decode_tokens (ts : list Token) : option string :=
  match ts with
  | [] => Some EmptyString
  | Bad :: _ => None
  | Lit c :: rest => emit [nat_of_ascii c] (decode_tokens rest)
  | Esc b :: rest =>
      if Nat.ltb b 128 then emit [b] (decode_tokens rest)
      else if between 194 223 b then
        match rest with
        | Esc b2 :: rest2 =>
            if continuation b2 then emit [b; b2] (decode_tokens rest2) else None
        | _ => None
        end
      else if between 224 239 b then
        match rest with
        | Esc b2 :: Esc b3 :: rest3 =>
            if (second_of_3 b b2 && continuation b3)%bool
            then emit [b; b2; b3] (decode_tokens rest3) else None
        | _ => None
        end
      else if between 240 244 b then
        match rest with
        | Esc b2 :: Esc b3 :: Esc b4 :: rest4 =>
            if (second_of_4 b b2 && continuation b3 && continuation b4)%bool
            then emit [b; b2; b3; b4] (decode_tokens rest4) else None
        | _ => None
        end
      else None
  end.

(** [decodeURIComponent(s)]; [None] when it raises URIError. *)
Definition decodeURIComponent (s : string) : option string :=
  decode_tokens (tokens s).

(** ** The handler *)

(** [getCsrfToken()], reading [document.cookie = cookie]. *)
Definition getCsrfToken (cookie : string) : option string :=
  match decodeURIComponent cookie with
  | None => None
  | Some decodedCookie => Some (find_cookie "csrftoken=" (split ";" decodedCookie))
  end.

(** The [options] argument of the constructor; [None] is an absent
    (undefined) field. *)
Record HandlerOptions := mkHandlerOptions {
  ho_debug : option bool;
  ho_defaultRetries : option Z;
  ho_defaultDelay : option Z
}.

Record AjaxHandler := mkAjaxHandler {
  debug : bool;
  defaultRetries : Z;
  defaultDelay : Z;
  csrfToken : string
}.

(** [a ?? b] *)
Definition nullish {A : Type} (a : option A) (b : A) : A :=
  match a with Some x => x | None => b end.

(** [new AjaxHandler(options)]; [None] when the constructor raises. *)
Definition new_AjaxHandler (options : HandlerOptions) (cookie : string)
  : option AjaxHandler :=
  match getCsrfToken cookie with
  | None => None
  | Some token =>
      Some {| debug := match ho_debug options with Some b => b | None => false end;
              defaultRetries := nullish (ho_defaultRetries options) 3;
              defaultDelay := nullish (ho_defaultDelay options) 500;
              csrfToken := token |}
  end.


(** The string holds a percent sign. *)
Fixpoint holds_percent (s : string) : bool :=
  match s with
  | EmptyString => false
  | String c rest => (Ascii.eqb c "%" || holds_percent rest)%bool
  end.

(** ** The transport *)

Inductive Payload : Type :=
| QueryParams (data : JsVal)      (* [data] handed over as it is *)
| JsonBody (data : JsVal).        (* [JSON.stringify(data)] *)

(** The settings object passed to [$.ajax]. *)
Record AjaxSettings := mkAjaxSettings {
  s_url : string;
  s_type : string;
  s_data : Payload;
  s_contentType : string;
  s_X_CSRFToken : string;
  s_dataType : string
}.

(** The transport and the server behind it: how the [$.ajax] call of
    attempt number [attempt] settles. *)
Definition Net := Z -> AjaxSettings -> Settled.

(** Observable events of one [request] call, in the order they happen. *)
Inductive Event : Type :=
| EvLogRequest (method url : string) (attempt : Z)   (* console.log *)
| EvLogMalformed (response : JsVal)                  (* console.error *)
| EvLogError (status error : JsVal)                  (* console.error *)
| EvAjax (attempt : Z) (settings : AjaxSettings)     (* $.ajax(settings) *)
| EvSetTimeout (ms : Z)                              (* setTimeout(res, ms) *)
| EvSuccess (response : JsVal)                       (* options.success(response) *)
| EvError (xhr status error : JsVal)                 (* options.error(xhr, status, error) *)
| EvFinally.                                         (* options.finally() *)

Section Request.

(** The state the caller's callbacks act on. *)
Context {U : Type}.

(** A callback runs on the state and may raise: [Some e] is [throw e]. *)
Definition Effect := U -> U * option JsVal.

(** The [options] argument of [request]. *)
Record Options := mkOptions {
  retries : option Z;
  delay : option Z;
  success : option (JsVal -> Effect);
  error : option (JsVal -> JsVal -> JsVal -> Effect);
  finally : option Effect
}.

Definition Outcome : Type := list Event * U * Settled.

Variable this : AjaxHandler.
Variable method url : string.
Variable data : JsVal.
Variable options : Options.
Variable net : Net.

Definition log_if (b : bool) (evs : list Event) : list Event :=
  if b then evs else [].

Definition settings : AjaxSettings :=
  {| s_url := url;
     s_type := method;
     s_data := if String.eqb method "GET" then QueryParams data else JsonBody data;
     s_contentType := "application/json";
     s_X_CSRFToken := csrfToken this;
     s_dataType := "json" |}.

(** [{ xhr: null, status: 'invalid_json', error: msg }] *)
Definition invalid_json : JsVal :=
  JObj [("xhr", JNull); ("status", JStr "invalid_json");
        ("error", JStr "Malformed JSON response")].

(** [{ xhr, status, error }] *)
Definition error_object (xhr status err : JsVal) : JsVal :=
  JObj [("xhr", xhr); ("status", status); ("error", err)].

Definition malformed (response : JsVal) (u : U) : Outcome :=
  (log_if (debug this) [EvLogMalformed response], u, Rejected [invalid_json]).

(** The handler passed to [.then]. *)
Definition on_response (response : JsVal) (u : U) : Outcome :=
  if negb (String.eqb (typeof response) "object") then malformed response u
  else
    match get_prop response "success" with
    | Throw e => ([], u, Rejected [e])
    | Normal s =>
        if is_undefined s then malformed response u
        else
          match success options with
          | None => ([], u, Fulfilled response)
          | Some cb =>
              match cb response u with
              | (u', None) => ([EvSuccess response], u', Fulfilled response)
              | (u', Some e) => ([EvSuccess response], u', Rejected [e])
              end
          end
    end.

(** [$.ajax(...).then(on_response)] *)
Definition then_stage (settled : Settled) (u : U) : Outcome :=
  match settled with
  | Fulfilled response => on_response response u
  | Rejected args => ([], u, Rejected args)
  end.

(** The [else] branch of the handler passed to [.catch]. *)
Definition final_failure (xhr status err : JsVal) (u : U) : Outcome :=
  match error options with
  | None => ([], u, Rejected [error_object xhr status err])
  | Some cb =>
      match cb xhr status err u with
      | (u', None) => ([EvError xhr status err], u', Rejected [error_object xhr status err])
      | (u', Some e) => ([EvError xhr status err], u', Rejected [e])
      end
  end.

Definition request_retries : Z := nullish (retries options) (defaultRetries this).
Definition request_delay : Z := nullish (delay options) (defaultDelay this).

(** [makeRequest], with the captured counter [attempt] passed along.
    [fuel] bounds the depth of the recursion through [.then(makeRequest)]. *)
Fixpoint makeRequest (fuel : nat) (attempt : Z) (u : U) : option Outcome :=
  match fuel with
  | O => None
  | S fuel' =>
      let attempt := attempt + 1 in
      let sent := log_if (debug this) [EvLogRequest method url attempt]
                  ++ [EvAjax attempt settings] in
      match then_stage (net attempt settings) u with
      | (tr1, u1, Fulfilled v) => Some (sent ++ tr1, u1, Fulfilled v)
      | (tr1, u1, Rejected args) =>
          let xhr := arg 0 args in
          let status := arg 1 args in
          let err := arg 2 args in
          let logged := log_if (debug this) [EvLogError status err] in
          if attempt <? request_retries then
            match makeRequest fuel' attempt u1 with
            | None => None
            | Some (tr2, u2, r) =>
                Some (sent ++ tr1 ++ logged ++ [EvSetTimeout request_delay] ++ tr2, u2, r)
            end
          else
            match final_failure xhr status err u1 with
            | (tr2, u2, r) => Some (sent ++ tr1 ++ logged ++ tr2, u2, r)
            end
      end
  end.

(** [.finally(() => { if (options.finally) options.finally(); })] *)
Definition finally_stage (o : Outcome) : Outcome :=
  match o with
  | (tr, u, r) =>
      match finally options with
      | None => (tr, u, r)
      | Some cb =>
          match cb u with
          | (u', None) => (tr ++ [EvFinally], u', r)
          | (u', Some e) => (tr ++ [EvFinally], u', Rejected [e])
          end
      end
  end.

(** [request(method, url, data, options)].  The recursion of
    [makeRequest] is at most [retries] deep, so the fuel given here is
    never used up ([request_runs]). *)
Definition request (u : U) : option Outcome :=
  match makeRequest (S (Z.to_nat request_retries)) 0 u with
  | None => None
  | Some o => Some (finally_stage o)
  end.

(** The runs of [makeRequest] as a relation: [Run attempt u o] when the
    chain started with the counter at [attempt] in state [u] settles as
    [o].  One rule per way an attempt can end. *)
Inductive Run : Z -> U -> Outcome -> Prop :=
| Run_fulfilled attempt u tr1 u1 v :
    then_stage (net (attempt + 1) settings) u = (tr1, u1, Fulfilled v) ->
    Run attempt u
      ((log_if (debug this) [EvLogRequest method url (attempt + 1)]
          ++ [EvAjax (attempt + 1) settings]) ++ tr1, u1, Fulfilled v)
| Run_retry attempt u tr1 u1 args tr2 u2 r :
    then_stage (net (attempt + 1) settings) u = (tr1, u1, Rejected args) ->
    attempt + 1 < request_retries ->
    Run (attempt + 1) u1 (tr2, u2, r) ->
    Run attempt u
      ((log_if (debug this) [EvLogRequest method url (attempt + 1)]
          ++ [EvAjax (attempt + 1) settings])
         ++ tr1 ++ log_if (debug this) [EvLogError (arg 1 args) (arg 2 args)]
         ++ [EvSetTimeout request_delay] ++ tr2, u2, r)
| Run_final_failure attempt u tr1 u1 args tr2 u2 r :
    then_stage (net (attempt + 1) settings) u = (tr1, u1, Rejected args) ->
    request_retries <= attempt + 1 ->
    final_failure (arg 0 args) (arg 1 args) (arg 2 args) u1 = (tr2, u2, r) ->
    Run attempt u
      ((log_if (debug this) [EvLogRequest method url (attempt + 1)]
          ++ [EvAjax (attempt + 1) settings])
         ++ tr1 ++ log_if (debug this) [EvLogError (arg 1 args) (arg 2 args)]
         ++ tr2, u2, r).

(** ** Kinds of attempts *)

(** The body passes the check of the [.then] handler. *)
Definition accepted (response : JsVal) : bool :=
  (String.eqb (typeof response) "object" &&
   match get_prop response "success" with
   | Normal s => negb (is_undefined s)
   | Throw _ => false
   end)%bool.

(** The body is turned down as malformed by the [.then] handler: it is
    not of type [object], or it is an object that has no [success]. *)
Definition turned_down (response : JsVal) : bool :=
  (negb (String.eqb (typeof response) "object") ||
   match get_prop response "success" with
   | Normal s => is_undefined s
   | Throw _ => false
   end)%bool.

(** An attempt that fails before any callback is run: the transport
    rejects, or the body is not accepted. *)
Definition attempt_fails (settled : Settled) : bool :=
  match settled with
  | Rejected _ => true
  | Fulfilled response => negb (accepted response)
  end.

(** The arguments the [.catch] handler receives after such an attempt. *)
Definition failure_args (settled : Settled) : list JsVal :=
  match settled with
  | Rejected args => args
  | Fulfilled response =>
      if turned_down response then [invalid_json] else [TypeError]
  end.

(** A callback that does not raise. *)
Definition returns_normally (f : Effect) : Prop := forall u, snd (f u) = None.

Definition success_returns_normally : Prop :=
  forall cb response, success options = Some cb -> returns_normally (cb response).

Definition error_returns_normally : Prop :=
  forall cb xhr status err, error options = Some cb -> returns_normally (cb xhr status err).

Definition finally_returns_normally : Prop :=
  forall cb, finally options = Some cb -> returns_normally cb.

End Request.

(** ** Observations on traces *)

Definition is_ajax (e : Event) : bool :=
  match e with EvAjax _ _ => true | _ => false end.
Definition is_timeout (e : Event) : bool :=
  match e with EvSetTimeout _ => true | _ => false end.
Definition is_success (e : Event) : bool :=
  match e with EvSuccess _ => true | _ => false end.
Definition is_error (e : Event) : bool :=
  match e with EvError _ _ _ => true | _ => false end.
Definition is_finally (e : Event) : bool :=
  match e with EvFinally => true | _ => false end.

Definition is_log (e : Event) : bool :=
  match e with
  | EvLogRequest _ _ _ | EvLogMalformed _ | EvLogError _ _ => true
  | _ => false
  end.

(** A stretch of a trace that holds console output only. *)
Definition quiet (tr : list Event) : Prop := Forall (fun e => is_log e = true) tr.

(** Number of events of a kind. *)
Definition count (p : Event -> bool) (tr : list Event) : nat :=
  length (List.filter p tr).




Arguments Options : clear implicits.
Arguments Effect : clear implicits.
Arguments Outcome : clear implicits.

(** [get(url, data, options)] and [post(url, data, options)] *)
Definition get {U} (this : AjaxHandler) (url : string) (data : JsVal)
  (options : Options U) (net : Net) (u : U) : option (Outcome U) :=
  request this "GET" url data options net u.

Definition post {U} (this : AjaxHandler) (url : string) (data : JsVal)
  (options : Options U) (net : Net) (u : U) : option (Outcome U) :=
  request this "POST" url data options net u.

(** ** Further observations on traces *)

(** The trace without the console output. *)
Definition without_logs (tr : list Event) : list Event :=
  List.filter (fun e => negb (is_log e)) tr.

(** The handler with another debug flag. *)
Definition with_debug (b : bool) (h : AjaxHandler) : AjaxHandler :=
  {| debug := b; defaultRetries := defaultRetries h; defaultDelay := defaultDelay h;
     csrfToken := csrfToken h |}.

(** The transport calls of a trace, in order: attempt number and settings. *)
Fixpoint transport_calls (tr : list Event) : list (Z * AjaxSettings) :=
  match tr with
  | [] => []
  | EvAjax a s :: rest => (a, s) :: transport_calls rest
  | _ :: rest => transport_calls rest
  end.

(** Attempts [first + 1 .. first + n] of a call made with the settings [s]. *)
Fixpoint attempts_from (first : Z) (n : nat) (s : AjaxSettings) : list (Z * AjaxSettings) :=
  match n with
  | O => []
  | S n' => (first + 1, s) :: attempts_from (first + 1) n' s
  end.

Definition attempts (n : nat) (s : AjaxSettings) : list (Z * AjaxSettings) :=
  attempts_from 0 n s.

(** [1] when the callback is given, [0] when it is not. *)
Definition given {A : Type} (cb : option A) : nat :=
  match cb with Some _ => 1%nat | None => 0%nat end.

(** The [success] callback raises on no body that passes the check. *)
Definition success_accepts {U} (options : Options U) : Prop :=
  forall cb v u, success options = Some cb -> accepted v = true -> snd (cb v u) = None.

(** An outcome without the console output. *)
Definition strip {U} (o : Outcome U) : Outcome U := (without_logs o.1.1, o.1.2, o.2).

(** ** The cookie string *)

(** A character of a cookie name or value as [document.cookie] lists it:
    visible ASCII other than [;] and [%]; in a name, other than [=] too. *)
Definition cookie_char (c : ascii) : bool :=
  (between 33 126 (nat_of_ascii c) && negb (Ascii.eqb c ";")
   && negb (Ascii.eqb c "%"))%bool.

Definition name_char (c : ascii) : bool :=
  (cookie_char c && negb (Ascii.eqb c "="))%bool.

Fixpoint all_chars (p : ascii -> bool) (s : string) : bool :=
  match s with
  | EmptyString => true
  | String c rest => (p c && all_chars p rest)%bool
  end.

(** [document.cookie] for the cookies [jar]: the pairs [name=value], joined
    by a semicolon and a space. *)
Fixpoint document_cookie (jar : list (string * string)) : string :=
  match jar with
  | [] => ""
  | (n, v) :: rest =>
      match rest with
      | [] => n ++ "=" ++ v
      | _ => n ++ "=" ++ v ++ "; " ++ document_cookie rest
      end
  end%string.

(** The value of the first cookie of that name. *)
Fixpoint cookie_value (name : string) (jar : list (string * string)) : option string :=
  match jar with
  | [] => None
  | (n, v) :: rest => if String.eqb n name then Some v else cookie_value name rest
  end.

Definition well_formed_jar (jar : list (string * string)) : Prop :=
  Forall (fun c => all_chars name_char (fst c) = true /\
                   all_chars cookie_char (snd c) = true) jar.

(** The string starts with two hexadecimal digits. *)
Definition starts_with_hex_pair (s : string) : bool :=
  match s with
  | String h (String l _) =>
      match hex_value h, hex_value l with
      | Some _, Some _ => true
      | _, _ => false
      end
  | _ => false
  end.

End Ajax.

(* ===================================================================== *)
(** * class UIHelper *)
(* ===================================================================== *)

Module UI.

(** ** The page *)

(** What an element holds: markup written by [.html(v)], or a toast
    element built and shown by [UIHelper.toast]. *)
Inductive Child : Type :=
| Markup (html : JsVal)
| ToastEl (color : string) (message : JsVal).

Record Node := mkNode {
  node_tag : string;
  node_id : string;
  node_classes : list string;
  node_disabled : bool;             (* the [disabled] attribute *)
  node_submit_of : option string;   (* a [button[type="submit"]] inside that form *)
  node_children : list Child
}.

Definition Dom := list Node.

(** ** Selections: the fragment [#id], [.class], [tag] of the selector language *)

Definition is_id_selector (sel : string) : bool :=
  match sel with
  | String "#" _ => true
  | _ => false
  end.

Definition matches (sel : string) (n : Node) : bool :=
  match sel with
  | EmptyString => false
  | String "#" id => (negb (String.eqb id "") && String.eqb id (node_id n))%bool
  | String "." c => (negb (String.eqb c "") && existsb (String.eqb c) (node_classes n))%bool
  | tag => String.eqb tag (node_tag n)
  end.


(** Apply [f] to every node satisfying [p]. *)
Definition update_all (p : Node -> bool) (f : Node -> Node) (d : Dom) : Dom :=
  map (fun n => if p n then f n else n) d.


(** [$(sel)]: the selected elements.  An id selector selects the first
    element with that id only. *)
Definition jq (sel : string) (d : Dom) : list Node :=
  if is_id_selector sel then
    match List.find (matches sel) d with
    | Some n => [n]
    | None => []
    end
  else List.filter (matches sel) d.

(** [$(sel).length] *)
Definition jq_length (sel : string) (d : Dom) : nat := length (jq sel d).

(** ** Element operations *)



(** [.attr('disabled', b)] *)
Definition attr_disabled (b : bool) (n : Node) : Node :=
  {| node_tag := node_tag n; node_id := node_id n; node_classes := node_classes n;
     node_disabled := b; node_submit_of := node_submit_of n;
     node_children := node_children n |}.



(** ** The static methods *)





(** [data[name] = value] on an object created by [{}]: the own properties
    of [data] are a finite map.  The name [__proto__] is the accessor
    inherited from [Object.prototype]; assigning a string through it
    stores nothing. *)
Definition set_prop (data : gmap string string) (name value : string)
  : gmap string string :=
  if String.eqb name "__proto__" then data else <[name := value]> data.

(** [serializeForm(selector)], where [formArray] is
    [$(selector).serializeArray()], the [(name, value)] pairs of the form's
    controls in document order. *)
Definition serializeForm (formArray : list (string * string)) : gmap string string :=
  fold_left (fun data item => set_prop data (fst item) (snd item)) formArray ∅.

(** The field [name] of the form as the spec words it: the value of the
    last control with that name. *)
Fixpoint last_value (name : string) (formArray : list (string * string)) : option string :=
  match formArray with
  | [] => None
  | (k, v) :: rest =>
      match last_value name rest with
      | Some v' => Some v'
      | None => if String.eqb k name then Some v else None
      end
  end.







(** [disableButton(selector)] and [enableButton(selector)], where
    [selector] is a jQuery object, given by the elements it holds. *)
Definition disableButton (selector : Node -> bool) (d : Dom) : Dom :=
  update_all selector (attr_disabled true) d.

Definition enableButton (selector : Node -> bool) (d : Dom) : Dom :=
  update_all selector (attr_disabled false) d.

(** ** What the callbacks of a listener do to the page *)








End UI.

(* ===================================================================== *)
(** * class GlobalEvents and the document-ready handler *)
(* ===================================================================== *)

Module Binder.
Import Ajax UI.

Record GlobalEvents := mkGlobalEvents { ajax : AjaxHandler }.


(** A [form[data-ajax-post]]. *)
Record Form := mkForm {
  form_name : string;                        (* which form of the page it is *)
  form_action : string;                      (* [form.attr('action')] *)
  form_target : string;                      (* [form.data('target')]; empty when absent *)
  form_controls : list (string * string)     (* [$(this).serializeArray()] *)
}.

(** [form.find('button[type="submit"]')]: the submit buttons inside the
    form. *)
Definition find_submit_buttons (form : Form) (n : Node) : bool :=
  match node_submit_of n with
  | Some f => String.eqb f (form_name form)
  | None => false
  end.








Definition toast_container : Node :=
  {| node_tag := "div"; node_id := "toast-container";
     node_classes := ["position-fixed"; "top-0"; "end-0"; "p-3"];
     node_disabled := false; node_submit_of := None; node_children := [] |}.

(** [new GlobalEvents()]; [None] when the constructor raises. *)
Definition new_GlobalEvents (cookie : string) : option GlobalEvents :=
  match new_AjaxHandler
          {| ho_debug := Some true; ho_defaultRetries := None; ho_defaultDelay := None |}
          cookie with
  | None => None
  | Some h => Some {| ajax := h |}
  end.

(** The handler passed to [$(document).ready]: [window.App] and the page
    it leaves; [None] when it raises. *)
Definition document_ready (cookie : string) (d : Dom) : option (GlobalEvents * Dom) :=
  match new_GlobalEvents cookie with
  | None => None
  | Some app =>
      if Nat.eqb (jq_length "#toast-container" d) 0
      then Some (app, d ++ [toast_container])
      else Some (app, d)
  end.

(** ** The listeners, by their parts *)





End Binder.

(* ===================================================================== *)
(** * Concrete pages, servers and callbacks *)
(* ===================================================================== *)

Module Examples.
Import Ajax UI Binder.

Definition handler : AjaxHandler :=
  {| debug := false; defaultRetries := 3; defaultDelay := 500; csrfToken := "k3y" |}.


(** A server that answers every call with the same body. *)
Definition net_always (body : JsVal) : Net := fun _ _ => Fulfilled body.

Definition tick_and_raise (e : JsVal) : Effect nat := fun n => (S n, Some e).



Definition raising_success (n : option Z) : Options nat :=
  {| retries := n; delay := None;
     success := Some (fun _ => tick_and_raise (JStr "boom"));
     error := None; finally := None |}.



Definition saved : JsVal := JObj [("success", JBool true); ("message", JStr "Saved")].


Definition no_options : HandlerOptions :=
  {| ho_debug := None; ho_defaultRetries := None; ho_defaultDelay := None |}.

(** A page with a panel and a form with one submit button. *)
Definition panel : Node :=
  {| node_tag := "div"; node_id := "panel"; node_classes := ["card"];
     node_disabled := false; node_submit_of := None;
     node_children := [Markup (JStr "<p>old</p>")] |}.

Definition save_button : Node :=
  {| node_tag := "button"; node_id := "save"; node_classes := ["btn"];
     node_disabled := false; node_submit_of := Some "patient-form";
     node_children := [Markup (JStr "Save")] |}.

Definition page : Dom := [panel; save_button].





(** The binder of a page whose cookie string is [csrftoken=tok123], and
    the example page as the document-ready handler leaves it. *)
Definition app : GlobalEvents :=
  {| ajax := {| debug := true; defaultRetries := 3; defaultDelay := 500;
                csrfToken := "tok123" |} |}.



(** The cookies of a page. *)
Definition jar : list (string * string) :=
  [("sessionid", "abc"); ("csrftoken", "tok123"); ("theme", "dark")].

End Examples.

(* ===================================================================== *)
(** * Properties of [AjaxHandler.request] *)
(* ===================================================================== *)

Section RequestFacts.
Import Ajax.

Context {U : Type}.
Variable this : AjaxHandler.
Variable method url : string.
Variable data : JsVal.
Variable options : Options U.
Variable net : Net.

Local Abbreviation makeRequest := (makeRequest this method url data options net).
Local Abbreviation request := (request this method url data options net).
Local Abbreviation Run := (Run this method url data options net).
Local Abbreviation settings := (settings this method url data).
Local Abbreviation N := (request_retries this options).
Local Abbreviation then_stage := (then_stage this options).
Local Abbreviation final_failure := (final_failure options).
Local Abbreviation finally_stage := (finally_stage options).

(** Every result of the function is a run of the relation. *)
Lemma makeRequest_Run fuel : forall attempt u o,
  makeRequest fuel attempt u = Some o -> Run attempt u o.
Proof.
  induction fuel as [|fuel IH]; intros attempt u o H; [discriminate|].
  cbn [Ajax.makeRequest] in H.
  destruct (then_stage (net (attempt + 1) settings) u) as [[tr1 u1] [v|args]] eqn:E.
  - injection H as <-. now apply Run_fulfilled.
  - destruct (attempt + 1 <? N) eqn:Hlt.
    + destruct (makeRequest fuel (attempt + 1) u1) as [[[tr2 u2] r]|] eqn:E2;
        [|discriminate].
      injection H as <-. eapply Run_retry; eauto. now apply Z.ltb_lt.
    + destruct (final_failure (arg 0 args) (arg 1 args) (arg 2 args) u1)
        as [[tr2 u2] r] eqn:E2.
      injection H as <-. eapply Run_final_failure; eauto. now apply Z.ltb_ge.
Qed.

(** The chain settles: with more fuel than attempts left, [makeRequest]
    returns. *)
Lemma makeRequest_total fuel : forall attempt u,
  (Z.to_nat (N - (attempt + 1)) < fuel)%nat ->
  exists o, makeRequest fuel attempt u = Some o.
Proof.
  induction fuel as [|fuel IH]; intros attempt u Hfuel; [lia|].
  cbn [Ajax.makeRequest].
  destruct (then_stage (net (attempt + 1) settings) u) as [[tr1 u1] [v|args]] eqn:E.
  - eauto.
  - destruct (attempt + 1 <? N) eqn:Hlt.
    + apply Z.ltb_lt in Hlt.
      destruct (IH (attempt + 1) u1) as [[[tr2 u2] r] ->]; [lia|]. eauto.
    + destruct (final_failure _ _ _ u1) as [[tr2 u2] r]. eauto.
Qed.

(** [request] always returns, and what it returns is a run of the chain
    followed by the [finally] stage. *)
Lemma request_runs u :
  exists o, Run 0 u o /\ request u = Some (finally_stage o).
Proof.
  unfold Ajax.request.
  destruct (makeRequest_total (S (Z.to_nat N)) 0 u) as [o Ho]; [lia|].
  rewrite Ho. exists o. split; [|reflexivity]. eapply makeRequest_Run; eauto.
Qed.

(** ** Counting along a trace *)

Lemma count_app p (a b : list Event) : count p (a ++ b) = (count p a + count p b)%nat.
Proof. unfold count. now rewrite List.filter_app, length_app. Qed.


Lemma quiet_log_if b e : is_log e = true -> quiet (log_if b [e]).
Proof. intros He. destruct b; cbn; unfold quiet; auto. Qed.

Lemma quiet_count p (tr : list Event) :
  (forall e, p e = true -> is_log e = false) -> quiet tr -> count p tr = 0%nat.
Proof.
  intros Hp Hq. induction Hq as [|e tr He _ IH]; [reflexivity|].
  unfold count in *. cbn. destruct (p e) eqn:E; [|exact IH].
  apply Hp in E. congruence.
Qed.


Lemma quiet_no_event (tr : list Event) e : quiet tr -> is_log e = false -> ~ In e tr.
Proof.
  intros Hq He Hin. unfold quiet in Hq. rewrite List.Forall_forall in Hq.
  apply Hq in Hin. congruence.
Qed.

(** The five kinds of events counted below are no console output. *)
Lemma counted_not_log p :
  p = is_ajax \/ p = is_timeout \/ p = is_success \/ p = is_error \/ p = is_finally ->
  forall e, p e = true -> is_log e = false.
Proof. intros [->|[->|[->|[->| ->]]]] e; destruct e; cbn; congruence. Qed.

Create HintDb trace.
#[local] Hint Resolve quiet_log_if : trace.

(** ** One attempt *)

(** The [.then] stage either fails without running a callback, or accepts
    the body and runs the [success] callback on it. *)
Lemma then_stage_cases settled u tr1 u1 r :
  then_stage settled u = (tr1, u1, r) ->
  (attempt_fails settled = true /\ quiet tr1 /\ u1 = u /\
   r = Rejected (failure_args settled))
  \/
  (exists v, settled = Fulfilled v /\ accepted v = true /\
     ((success options = None /\ tr1 = [] /\ u1 = u /\ r = Fulfilled v) \/
      (exists cb, success options = Some cb /\ tr1 = [EvSuccess v] /\
         u1 = fst (cb v u) /\
         r = match snd (cb v u) with
             | None => Fulfilled v
             | Some e => Rejected [e]
             end))).
Proof.
  destruct settled as [v|args]; cbn [Ajax.then_stage].
  2:{ intros [= <- <- <-]. left. repeat split. constructor. }
  intros H. unfold on_response, malformed in H.
  destruct v as [| |b|n|s|items|props]; cbn in H;
    try (left; injection H as <- <- <-; repeat split; auto with trace; constructor).
  destruct (own_prop "success" props) as [x|] eqn:Ex.
  2:{ left. injection H as <- <- <-.
      unfold attempt_fails, failure_args, accepted, turned_down. cbn. rewrite Ex. cbn.
      repeat split; auto with trace. }
  destruct (is_undefined x) eqn:Eu.
  { left. injection H as <- <- <-.
    unfold attempt_fails, failure_args, accepted, turned_down. cbn. rewrite Ex, Eu. cbn.
    repeat split; auto with trace. }
  right. exists (JObj props). split; [reflexivity|].
  split; [unfold accepted; cbn; now rewrite Ex, Eu|].
  destruct (success options) as [cb|] eqn:Ecb.
  - right. exists cb. destruct (cb (JObj props) u) as [u' [e|]] eqn:Ecall;
      injection H as <- <- <-; auto.
  - left. injection H as <- <- <-. auto.
Qed.

(** The last branch of the [.catch] handler runs the [error] callback, if
    there is one, and rejects. *)
Lemma final_failure_cases xhr status err u tr2 u2 r :
  final_failure xhr status err u = (tr2, u2, r) ->
  (tr2 = [] \/ tr2 = [EvError xhr status err]) /\
  (exists reason, r = Rejected [reason]) /\
  (error_returns_normally options -> r = Rejected [error_object xhr status err]).
Proof.
  unfold Ajax.final_failure, error_returns_normally, returns_normally.
  destruct (error options) as [cb|] eqn:Ecb.
  - destruct (cb xhr status err u) as [u' [e|]] eqn:Ecall;
      intros [= <- <- <-]; (split; [auto|]); (split; [eauto|]); intros Hn; auto.
    specialize (Hn cb xhr status err eq_refl u). rewrite Ecall in Hn. discriminate.
  - intros [= <- <- <-]. eauto.
Qed.

(** ** Whole runs *)

Lemma quiet_counts (tr : list Event) :
  quiet tr ->
  count is_ajax tr = 0%nat /\ count is_timeout tr = 0%nat /\ count is_success tr = 0%nat /\
  count is_error tr = 0%nat /\ count is_finally tr = 0%nat.
Proof.
  intros Hq. repeat split; apply quiet_count; auto; apply counted_not_log; auto 6.
Qed.

(** Replace the counts of the parts of an attempt by their values. *)
Ltac count_parts :=
  repeat match goal with
  | H : quiet ?t |- _ =>
      let Ha := fresh in
      destruct (quiet_counts t H) as (Ha & ? & ? & ? & ?); clear H
  | H : ?t = [] \/ ?t = [_] |- _ => destruct H as [-> | ->]
  end;
  rewrite ?count_app in *; cbn [count List.filter length is_ajax is_timeout is_success
                                is_error is_finally] in *.

Lemma log_request_quiet (b : bool) m (x : string) a : quiet (log_if b [EvLogRequest m x a]).
Proof. now apply quiet_log_if. Qed.

Lemma log_error_quiet (b : bool) s e : quiet (log_if b [EvLogError s e]).
Proof. now apply quiet_log_if. Qed.

(** Induction on a run.  In each case the attempt at hand is taken apart:
    it failed before any callback ([Hfails]), or its body [w] was accepted
    and no callback was given, or the callback [cb] was run on it; cases the
    settlement rules out are closed. *)
Ltac run_induction HR :=
  induction HR as [attempt u tr1 u1 v E
                  |attempt u tr1 u1 args tr2 u2 r E Hlt HR IH
                  |attempt u tr1 u1 args tr2 u2 r E Hge G];
  cbn [fst snd] in *;
  pose proof (log_request_quiet (debug this) method url (attempt + 1)) as Hq1;
  try pose proof (log_error_quiet (debug this) (arg 1 args) (arg 2 args)) as Hq2;
  apply then_stage_cases in E;
  destruct E as [(Hfails & Hq & Hu & Hr)
                | (w & Hw & Hacc & [(Hcb & Htr & Hu & Hr) | (cb & Hcb & Htr & Hu & Hr)])];
  try discriminate Hr;
  try (apply final_failure_cases in G; destruct G as (G & Hrej & Hlast));
  try subst tr1.

(** How often each kind of event occurs in a run of the chain: no [finally],
    one timer between two transport calls, at most one [error] callback and
    at most one [success] callback for each transport call. *)
Lemma Run_counts attempt u o :
  Run attempt u o ->
  count is_finally o.1.1 = 0%nat /\
  (count is_timeout o.1.1 + 1 = count is_ajax o.1.1)%nat /\
  (count is_error o.1.1 <= 1)%nat /\
  (count is_success o.1.1 <= count is_ajax o.1.1)%nat.
Proof. intros HR. run_induction HR; count_parts; lia. Qed.


(** A [success] callback that returns normally ends the chain: it is run at
    most once. *)
Lemma Run_success_once attempt u o :
  success_returns_normally options ->
  Run attempt u o -> (count is_success o.1.1 <= 1)%nat.
Proof.
  intros Hn HR. run_induction HR;
    try (rewrite (Hn cb w Hcb u) in Hr; discriminate Hr);
    count_parts; lia.
Qed.


(** Membership in a trace put together from parts. *)
Ltac in_parts Hin :=
  repeat (apply List.in_app_or in Hin; destruct Hin as [Hin|Hin]);
  try (exfalso; eapply quiet_no_event; [| | exact Hin]; eauto; reflexivity);
  repeat match type of Hin with
  | In _ [] => destruct Hin
  | In _ [_] => destruct Hin as [Hin|[]]
  | _ \/ _ => destruct Hin as [Hin|Hin]
  end.


(** The [success] callback only ever receives a body that an attempt of the
    run returned and that passed the check. *)
Lemma Run_success_events attempt u o :
  Run attempt u o ->
  forall v, In (EvSuccess v) o.1.1 ->
    accepted v = true /\ exists a, attempt < a /\ net a settings = Fulfilled v.
Proof.
  intros HR. run_induction HR; intros v' Hin.
  all: try destruct G as [-> | ->].
  all: in_parts Hin; try discriminate Hin.
  all: try (injection Hin as <-; split; [assumption|];
            exists (attempt + 1); split; [lia|assumption]).
  all: destruct (IH _ Hin) as (? & a & ? & ?); split; [assumption|];
    exists a; split; [lia|assumption].
Qed.


(** ** The [finally] stage *)

Lemma finally_stage_none o : finally options = None -> finally_stage o = o.
Proof. intros H. destruct o as [[tr u] r]. unfold Ajax.finally_stage. now rewrite H. Qed.

Lemma finally_stage_some cb o :
  finally options = Some cb ->
  finally_stage o =
    (o.1.1 ++ [EvFinally], fst (cb o.1.2),
     match snd (cb o.1.2) with
     | None => o.2
     | Some e => Rejected [e]
     end).
Proof.
  intros H. destruct o as [[tr u] r]. unfold Ajax.finally_stage. rewrite H. cbn.
  now destruct (cb u) as [u' [e|]].
Qed.

(** The trace of the whole call is the trace of the chain, followed by
    [EvFinally] when a [finally] callback was given. *)
Lemma finally_stage_trace o :
  (finally_stage o).1.1 = o.1.1 ++ match finally options with
                                   | Some _ => [EvFinally]
                                   | None => []
                                   end.
Proof.
  destruct (finally options) as [cb|] eqn:E.
  - now rewrite (finally_stage_some cb o E).
  - rewrite (finally_stage_none o E). now rewrite List.app_nil_r.
Qed.

Lemma finally_stage_settled o :
  finally_returns_normally options -> (finally_stage o).2 = o.2.
Proof.
  intros Hn. destruct (finally options) as [cb|] eqn:E.
  - rewrite (finally_stage_some cb o E). cbn. now rewrite (Hn cb E).
  - now rewrite (finally_stage_none o E).
Qed.


(** ** The claims about [request] *)



(** C10, as amended.  The [success] callback is only ever run on a body that
    an attempt of this call returned and that passed the check, at most once
    for each transport call; when it returns normally it is run at most once
    in the whole call, also after earlier attempts have failed. *)
Theorem success_callback_discipline (u : U) :
  exists tr u' r,
    request u = Some (tr, u', r) /\
    (forall v, In (EvSuccess v) tr ->
       accepted v = true /\ exists a, 1 <= a /\ net a settings = Fulfilled v) /\
    (count is_success tr <= count is_ajax tr)%nat /\
    (success_returns_normally options -> (count is_success tr <= 1)%nat).
Proof.
  destruct (request_runs u) as (o & HR & Hreq).
  destruct (finally_stage o) as [[tr u'] r] eqn:Ef.
  exists tr, u', r. split; [exact Hreq|].
  pose proof (finally_stage_trace o) as Htr. rewrite Ef in Htr. cbn [fst snd] in Htr.
  assert (Hquiet : forall p, p EvFinally = false -> count p tr = count p o.1.1).
  { intros p Hp. rewrite Htr, count_app. destruct (finally options); unfold count; cbn;
      rewrite ?Hp; cbn; lia. }
  rewrite !Hquiet by reflexivity.
  split; [|split].
  - intros v Hin. rewrite Htr in Hin. apply List.in_app_or in Hin.
    destruct Hin as [Hin|Hin].
    + destruct (Run_success_events 0 u o HR v Hin) as (Ha & a & Hlt & Hnet).
      split; [assumption|]. exists a. split; [lia|assumption].
    + destruct (finally options); cbn in Hin; [destruct Hin as [[=]|[]] | destruct Hin].
  - now destruct (Run_counts 0 u o HR) as (_ & _ & _ & ?).
  - intros Hn. now apply (Run_success_once 0 u o Hn).
Qed.









(** ** How a call ends *)

(** What the last branch of the [.catch] handler leaves behind. *)
Lemma final_failure_effect xhr status err u tr2 u2 r :
  final_failure xhr status err u = (tr2, u2, r) ->
  tr2 = match error options with
        | Some _ => [EvError xhr status err]
        | None => []
        end /\
  u2 = match error options with
       | Some cb => fst (cb xhr status err u)
       | None => u
       end.
Proof.
  unfold Ajax.final_failure. destruct (error options) as [cb|].
  - destruct (cb xhr status err u) as [u' [e|]]; intros [= <- <- <-]; auto.
  - intros [= <- <- <-]. auto.
Qed.

(** Induction on a run as above, with the trace and the state the [error]
    callback leaves written out. *)
Ltac run_induction_eq HR :=
  induction HR as [attempt u tr1 u1 v E
                  |attempt u tr1 u1 args tr2 u2 r E Hlt HR IH
                  |attempt u tr1 u1 args tr2 u2 r E Hge G];
  cbn [fst snd] in *;
  pose proof (log_request_quiet (debug this) method url (attempt + 1)) as Hq1;
  try pose proof (log_error_quiet (debug this) (arg 1 args) (arg 2 args)) as Hq2;
  try (pose proof (final_failure_effect _ _ _ _ _ _ _ G) as (Gtr & Gu));
  apply then_stage_cases in E;
  destruct E as [(Hfails & Hq & Hu & Hr)
                | (w & Hw & Hacc & [(Hcb & Htr & Hu & Hr) | (cb & Hcb & Htr & Hu & Hr)])];
  try discriminate Hr;
  try (apply final_failure_cases in G; destruct G as (_ & Hrej & Hlast));
  try subst tr1; try subst tr2.

(** A run ends in one of two ways: fulfilled, and then the [error] callback
    has not been run; or rejected, and then the bound on the transport calls
    is used up and the [error] callback, when given, has been run once. *)
Lemma Run_settles attempt u o :
  Run attempt u o ->
  (exists v, o.2 = Fulfilled v /\ count is_error o.1.1 = 0%nat) \/
  (exists reason, o.2 = Rejected [reason] /\
     count is_ajax o.1.1 = Z.to_nat (Z.max 1 (N - attempt)) /\
     count is_error o.1.1 = given (error options)).
Proof.
  intros HR. run_induction_eq HR.
  1-2: left; eexists; split; [reflexivity|]; count_parts; lia.
  1-2: destruct IH as [(v & Hv & He) | (reason & Hre & Ha & He)]; [left|right];
    eexists; (split; [eassumption|]); count_parts; lia.
  all: right; destruct Hrej as (reason & ->); exists reason; (split; [reflexivity|]);
    unfold given; destruct (error options); count_parts; lia.
Qed.

(** When the [success] callback raises on no body that passes the check, at
    most one of the two callbacks is run, and at most once. *)
Lemma Run_exclusive attempt u o :
  success_accepts options ->
  Run attempt u o -> (count is_success o.1.1 + count is_error o.1.1 <= 1)%nat.
Proof.
  intros Hs HR. run_induction HR;
    try (rewrite (Hs cb w u Hcb Hacc) in Hr; discriminate Hr);
    count_parts; lia.
Qed.



Lemma transport_calls_app (a b : list Event) :
  transport_calls (a ++ b) = transport_calls a ++ transport_calls b.
Proof.
  induction a as [|e a IH]; [reflexivity|].
  destruct e; cbn; now rewrite ?IH.
Qed.

Lemma quiet_transport_calls (tr : list Event) : quiet tr -> transport_calls tr = [].
Proof.
  intros Hq. induction Hq as [|e tr He _ IH]; [reflexivity|].
  destruct e; cbn in *; try discriminate; exact IH.
Qed.

(** The transport calls of a run carry consecutive attempt numbers and the
    same settings. *)
Lemma Run_transport_calls attempt u o :
  Run attempt u o ->
  transport_calls o.1.1 = attempts_from attempt (count is_ajax o.1.1) settings.
Proof.
  intros HR. run_induction_eq HR.
  all: rewrite ?transport_calls_app, ?IH;
    repeat match goal with
    | H : quiet ?t |- _ => rewrite (quiet_transport_calls t H)
    end.
  all: try destruct (error options).
  all: count_parts; cbn [transport_calls app];
    repeat match goal with
    | H : count is_ajax _ = 0%nat |- _ => rewrite ?H; clear H
    end;
    cbn [Nat.add attempts_from]; reflexivity.
Qed.

(** ** The stage after the chain *)


Lemma finally_stage_count p o :
  p EvFinally = false -> count p (finally_stage o).1.1 = count p o.1.1.
Proof.
  intros Hp. rewrite finally_stage_trace, count_app.
  destruct (finally options); unfold count; cbn; rewrite ?Hp; cbn; lia.
Qed.


Lemma finally_stage_transport_calls o :
  transport_calls (finally_stage o).1.1 = transport_calls o.1.1.
Proof.
  rewrite finally_stage_trace, transport_calls_app.
  destruct (finally options); cbn; now rewrite List.app_nil_r.
Qed.


(** A [finally] callback can turn a fulfilled call into a rejected one, not
    the other way round. *)
Lemma finally_stage_fulfilled o v :
  (finally_stage o).2 = Fulfilled v -> o.2 = Fulfilled v.
Proof.
  destruct (finally options) as [cb|] eqn:E.
  - rewrite (finally_stage_some cb o E). cbn. now destruct (snd (cb o.1.2)).
  - now rewrite (finally_stage_none o E).
Qed.

(** ** Further properties of a call *)


(** X2.  In every call the [error] callback is run at most once; it is run only
    when the bound on the transport calls is used up, never in a call that
    resolves; when the [finally] callback returns normally, a call that
    rejects has used up the bound and has run the [error] callback, if one
    is given, once; and when the [success] callback raises on no body that
    passes the check, at most one of [success] and [error] is run. *)
Theorem error_callback_discipline (u : U) :
  exists tr u' r,
    request u = Some (tr, u', r) /\
    (count is_error tr <= 1)%nat /\
    (count is_error tr = 1%nat -> count is_ajax tr = Z.to_nat (Z.max 1 N)) /\
    (forall v, r = Fulfilled v -> count is_error tr = 0%nat) /\
    (finally_returns_normally options ->
     forall args, r = Rejected args ->
       count is_ajax tr = Z.to_nat (Z.max 1 N) /\
       count is_error tr = given (error options)) /\
    (success_accepts options -> (count is_success tr + count is_error tr <= 1)%nat).
Proof.
  destruct (request_runs u) as (o & HR & Hreq).
  pose proof (Run_settles 0 u o HR) as Hend.
  pose proof (Run_exclusive 0 u o) as Hex.
  replace (N - 0) with N in Hend by lia.
  pose proof (finally_stage_settled o) as Hset.
  pose proof (finally_stage_fulfilled o) as Hful.
  pose proof (finally_stage_count is_success o eq_refl) as Hc1.
  pose proof (finally_stage_count is_error o eq_refl) as Hc2.
  pose proof (finally_stage_count is_ajax o eq_refl) as Hc3.
  destruct (finally_stage o) as [[tr u'] r]. cbn [fst snd] in *.
  exists tr, u', r. split; [exact Hreq|].
  rewrite Hc1, Hc2, Hc3.
  destruct Hend as [(v & Hv & He) | (reason & Hre & Ha & He)].
  - split; [lia|]. split; [lia|]. split; [intros; exact He|].
    split; [|intros Hs; now apply Hex].
    intros Hf args Hr. rewrite (Hset Hf), Hv in Hr. discriminate.
  - split; [rewrite He; unfold given; destruct (error options); lia|].
    split; [intros _; exact Ha|].
    split; [intros v Hr; apply Hful in Hr; congruence|].
    split; [|intros Hs; now apply Hex].
    intros Hf args Hr. now split.
Qed.


(** ** Console output *)

Lemma without_logs_app (a b : list Event) :
  without_logs (a ++ b) = without_logs a ++ without_logs b.
Proof. apply List.filter_app. Qed.

Lemma without_logs_log_if (b : bool) e :
  is_log e = true -> without_logs (log_if b [e]) = [].
Proof. intros He. destruct b; cbn; [now rewrite He | reflexivity]. Qed.

(** The [.then] stage of a handler with another debug flag differs in its
    console output only. *)
Lemma then_stage_debug b settled u :
  strip (Ajax.then_stage (with_debug b this) options settled u)
  = strip (then_stage settled u).
Proof.
  destruct settled as [v|args]; [|reflexivity].
  cbn [Ajax.then_stage]. unfold on_response, malformed, strip.
  destruct (negb (String.eqb (typeof v) "object")).
  { cbn [fst snd]. now rewrite !without_logs_log_if. }
  destruct (get_prop v "success") as [s|e]; [|reflexivity].
  destruct (is_undefined s).
  { cbn [fst snd]. now rewrite !without_logs_log_if. }
  reflexivity.
Qed.

Lemma makeRequest_debug b fuel : forall attempt u,
  option_map strip
    (Ajax.makeRequest (with_debug b this) method url data options net fuel attempt u)
  = option_map strip (makeRequest fuel attempt u).
Proof.
  induction fuel as [|fuel IH]; intros attempt u; [reflexivity|].
  cbn [Ajax.makeRequest].
  change (Ajax.settings (with_debug b this) method url data) with settings.
  change (request_retries (with_debug b this) options) with N.
  change (request_delay (with_debug b this) options) with (request_delay this options).
  pose proof (then_stage_debug b (net (attempt + 1) settings) u) as Hthen.
  destruct (Ajax.then_stage (with_debug b this) options (net (attempt + 1) settings) u)
    as [[tr1' u1'] r1'].
  destruct (then_stage (net (attempt + 1) settings) u) as [[tr1 u1] r1].
  unfold strip in Hthen. cbn [fst snd] in Hthen. injection Hthen as Htr -> ->.
  destruct r1 as [v|args].
  - unfold strip. cbn [option_map fst snd].
    rewrite !without_logs_app, !without_logs_log_if, Htr by reflexivity. reflexivity.
  - destruct (attempt + 1 <? N).
    + specialize (IH (attempt + 1) u1).
      destruct (Ajax.makeRequest (with_debug b this) method url data options net fuel
                  (attempt + 1) u1) as [[[tr2' u2'] r2']|];
        destruct (makeRequest fuel (attempt + 1) u1) as [[[tr2 u2] r2]|];
        try discriminate IH; [|reflexivity].
      unfold strip in *. cbn [option_map fst snd] in *. injection IH as Htr2 -> ->.
      rewrite !without_logs_app, !without_logs_log_if, Htr, Htr2 by reflexivity.
      reflexivity.
    + destruct (final_failure (arg 0 args) (arg 1 args) (arg 2 args) u1) as [[tr2 u2] r2].
      unfold strip. cbn [option_map fst snd].
      rewrite !without_logs_app, !without_logs_log_if, Htr by reflexivity. reflexivity.
Qed.

Lemma finally_stage_strip o o' :
  strip o' = strip o -> strip (finally_stage o') = strip (finally_stage o).
Proof.
  destruct o as [[tr u] r], o' as [[tr' u'] r']. unfold strip. cbn [fst snd].
  intros [= Htr -> ->]. unfold Ajax.finally_stage.
  destruct (finally options) as [cb|]; [|cbn -[without_logs]; now rewrite Htr].
  destruct (cb u) as [u1 [e|]]; cbn -[without_logs];
    now rewrite !without_logs_app, Htr.
Qed.

(** With the debug flag off, the [.then] stage writes nothing to the
    console. *)
Lemma then_stage_silent settled u :
  debug this = false -> without_logs (then_stage settled u).1.1 = (then_stage settled u).1.1.
Proof.
  intros Hd. destruct settled as [v|args]; [|reflexivity].
  cbn [Ajax.then_stage]. unfold on_response, malformed. rewrite Hd.
  destruct (negb (String.eqb (typeof v) "object")); [reflexivity|].
  destruct (get_prop v "success") as [s|e]; [|reflexivity].
  destruct (is_undefined s); [reflexivity|].
  destruct (success options) as [cb|]; [|reflexivity].
  now destruct (cb v u) as [u' [e|]].
Qed.

Lemma Run_silent attempt u o :
  debug this = false -> Run attempt u o -> without_logs o.1.1 = o.1.1.
Proof.
  intros Hd HR.
  induction HR as [attempt u tr1 u1 v E
                  |attempt u tr1 u1 args tr2 u2 r E Hlt HR IH
                  |attempt u tr1 u1 args tr2 u2 r E Hge G];
    cbn [fst snd] in *;
    pose proof (then_stage_silent (net (attempt + 1) settings) u Hd) as Hs;
    rewrite E in Hs; cbn [fst] in Hs;
    rewrite Hd; cbn [log_if app]; unfold without_logs in *;
    cbn [List.filter is_log negb]; rewrite ?List.filter_app;
    cbn [List.filter is_log negb]; rewrite ?Hs, ?IH; try reflexivity.
  apply final_failure_effect in G. destruct G as (-> & _).
  now destruct (error options).
Qed.

(** X3.  The debug flag changes the console output of a call and nothing else:
    the transport calls, the timers, the callbacks run, the final state and
    the result are the same with the flag on and off.  With the flag off a
    call writes nothing to the console. *)
Theorem debug_does_not_interfere (b : bool) (u : U) :
  exists tr tr' u' r,
    request u = Some (tr, u', r) /\
    Ajax.request (with_debug b this) method url data options net u = Some (tr', u', r) /\
    without_logs tr' = without_logs tr /\
    (debug this = false -> without_logs tr = tr).
Proof.
  destruct (makeRequest_total (S (Z.to_nat N)) 0 u) as [o Ho]; [lia|].
  pose proof (makeRequest_debug b (S (Z.to_nat N)) 0 u) as Hdbg.
  pose proof (makeRequest_Run _ _ _ _ Ho) as HR.
  rewrite Ho in Hdbg.
  destruct (Ajax.makeRequest (with_debug b this) method url data options net
              (S (Z.to_nat N)) 0 u) as [o'|] eqn:Ho'; [|discriminate].
  cbn [option_map] in Hdbg.
  assert (Hstrip : strip o' = strip o) by congruence.
  apply finally_stage_strip in Hstrip.
  pose proof (Run_silent 0 u o) as Hsilent.
  pose proof (finally_stage_trace o) as Htr.
  unfold Ajax.request.
  change (request_retries (with_debug b this) options) with N.
  rewrite Ho, Ho'.
  destruct (finally_stage o) as [[tr u'] r], (finally_stage o') as [[tr' u''] r'].
  unfold strip in Hstrip. cbn [fst snd] in *. injection Hstrip as Htr' -> ->.
  exists tr, tr', u', r. repeat split; auto.
  intros Hd. rewrite Htr, without_logs_app, Hsilent by auto.
  now destruct (finally options).
Qed.

(** ** Calls that fail for good *)



End RequestFacts.

(* ===================================================================== *)
(** * Configuration and security token *)
(* ===================================================================== *)

Section HandlerFacts.
Import Ajax.

Context {U : Type}.






(** A string without percent signs decodes to itself. *)
Lemma decodeURIComponent_plain s :
  holds_percent s = false -> decodeURIComponent s = Some s.
Proof.
  unfold decodeURIComponent. induction s as [|c s IH]; [reflexivity|].
  cbn [holds_percent tokens]. intros H. apply orb_false_elim in H. destruct H as [Hc Hs].
  rewrite Hc. cbn [decode_tokens]. rewrite (IH Hs). cbn.
  now rewrite ascii_nat_embedding.
Qed.



End HandlerFacts.

(* ===================================================================== *)
(** * Worked runs of [request] *)
(* ===================================================================== *)

Section RequestRuns.
Import Ajax Examples.








(** C10 as stated fails when the [success] callback raises: with a bound of
    2 it is run twice in one call. *)
Lemma raising_callback_runs_twice :
  exists tr u' r,
    request handler "POST" "/patients/add/" (JObj []) (raising_success (Some 2))
      (net_always saved) 0%nat = Some (tr, u', r) /\
    count is_success tr = 2%nat /\
    ~ (count is_success tr <= 1)%nat.
Proof.
  eexists _, _, _. split; [vm_compute; reflexivity|]. split; [reflexivity|].
  vm_compute. lia.
Qed.




End RequestRuns.

(* ===================================================================== *)
(** * Properties of [UIHelper] *)
(* ===================================================================== *)

Section UIFacts.
Import UI.

(** ** Form serialization *)

Lemma set_prop_lookup (m : gmap string string) k v name :
  name <> "__proto__" ->
  set_prop m k v !! name = if String.eqb k name then Some v else m !! name.
Proof.
  intros Hname. unfold set_prop.
  destruct (String.eqb k "__proto__") eqn:Ek.
  - apply String.eqb_eq in Ek. subst k.
    destruct (String.eqb "__proto__" name) eqn:En; [|reflexivity].
    apply String.eqb_eq in En. congruence.
  - destruct (String.eqb k name) eqn:En.
    + apply String.eqb_eq in En. subst. apply lookup_insert_eq.
    + apply String.eqb_neq in En. now apply lookup_insert_ne.
Qed.

Lemma set_prop_lookup_proto (m : gmap string string) k v :
  set_prop m k v !! "__proto__" = m !! "__proto__".
Proof.
  unfold set_prop. destruct (String.eqb k "__proto__") eqn:Ek; [reflexivity|].
  apply String.eqb_neq in Ek. now apply lookup_insert_ne.
Qed.

(** The loop of [serializeForm], started from any object. *)
Lemma fold_set_prop_lookup formArray : forall (m : gmap string string) name,
  name <> "__proto__" ->
  fold_left (fun data item => set_prop data (fst item) (snd item)) formArray m !! name
  = match last_value name formArray with
    | Some v => Some v
    | None => m !! name
    end.
Proof.
  induction formArray as [|[k v] rest IH]; intros m name Hname; [reflexivity|].
  cbn [fold_left last_value fst snd]. rewrite IH by assumption.
  destruct (last_value name rest) as [v'|]; [reflexivity|].
  rewrite set_prop_lookup by assumption.
  now destruct (String.eqb k name).
Qed.

Lemma fold_set_prop_lookup_proto formArray : forall (m : gmap string string),
  fold_left (fun data item => set_prop data (fst item) (snd item)) formArray m
    !! "__proto__" = m !! "__proto__".
Proof.
  induction formArray as [|[k v] rest IH]; intros m; [reflexivity|].
  cbn [fold_left fst snd]. rewrite IH. apply set_prop_lookup_proto.
Qed.

(** C6, as amended.  The object [serializeForm] returns maps field names to
    values, and a later control of a name overwrites an earlier one: every
    entry holds the value of the last control with its name, and every name
    of a control other than [__proto__] has an entry (an assignment to
    [__proto__] stores nothing).  Two controls [tag=a] and [tag=b] give
    [{tag: "b"}]. *)
Theorem serializeForm_last_wins (formArray : list (string * string)) :
  (forall name value,
     serializeForm formArray !! name = Some value ->
     last_value name formArray = Some value) /\
  (forall name, name <> "__proto__" ->
     serializeForm formArray !! name = last_value name formArray) /\
  serializeForm formArray !! "__proto__" = None /\
  serializeForm [("tag", "a"); ("tag", "b")] = {[ "tag" := "b" ]}.
Proof.
  assert (Hall : forall name, name <> "__proto__" ->
            serializeForm formArray !! name = last_value name formArray).
  { intros name Hname. unfold serializeForm.
    rewrite fold_set_prop_lookup by assumption.
    destruct (last_value name formArray); [reflexivity | apply lookup_empty]. }
  assert (Hproto : serializeForm formArray !! "__proto__" = None).
  { unfold serializeForm. rewrite fold_set_prop_lookup_proto. apply lookup_empty. }
  repeat split; try assumption.
  intros name value Hlook.
  destruct (String.eqb name "__proto__") eqn:E.
  - apply String.eqb_eq in E. subst name. rewrite Hproto in Hlook. discriminate.
  - apply String.eqb_neq in E. now rewrite <- Hall.
Qed.

(** ** Selections and updates of the page *)













(** ** The notification container *)








Section ReadyFacts.
Import Binder.




End ReadyFacts.

End UIFacts.

(* ===================================================================== *)
(** * Properties of the POST listener *)
(* ===================================================================== *)

Section BinderFacts.
Import Ajax UI Binder.

















End BinderFacts.

Section SubmitRefused.
Import Ajax UI Binder.


End SubmitRefused.

(* ===================================================================== *)
(** * Worked pages *)
(* ===================================================================== *)

Section PageRuns.
Import Ajax UI Binder Examples.





(** C6 as stated fails for a control named [__proto__]: the assignment
    stores nothing, and the object has no entry for the control. *)
Lemma proto_field_is_dropped :
  last_value "__proto__" [("__proto__", "a")] = Some "a" /\
  serializeForm [("__proto__", "a")] !! "__proto__" = None /\
  serializeForm [("__proto__", "a")] = ∅.
Proof. repeat split; reflexivity. Qed.

End PageRuns.

(* ===================================================================== *)
(** * [get], [post] and the payload *)
(* ===================================================================== *)

Section Verbs.
Import Ajax.

Context {U : Type}.

(** The transport calls of a call, numbered from 1, all carry the settings
    of the call. *)
Lemma request_transport_calls this method url data (options : Options U) net u :
  exists tr u' r,
    request this method url data options net u = Some (tr, u', r) /\
    transport_calls tr = attempts (count is_ajax tr) (settings this method url data).
Proof.
  destruct (request_runs this method url data options net u) as (o & HR & Hreq).
  pose proof (Run_transport_calls _ _ _ _ _ _ _ _ _ HR) as Hcalls.
  pose proof (finally_stage_transport_calls options o) as Htc.
  pose proof (finally_stage_count options is_ajax o eq_refl) as Hc.
  destruct (finally_stage options o) as [[tr u'] r]. cbn [fst snd] in *.
  exists tr, u', r. split; [exact Hreq|]. now rewrite Htc, Hc.
Qed.

(** X5.  Every attempt of a call resends the same request, under the attempt
    numbers 1, 2, ...: [get] sends [data] as it is, as query parameters,
    [post] sends it as a JSON body, and so does [request] for every method
    other than the string [GET]; the content type, the token header and the
    expected data type are the same in all of them. *)
Theorem verbs_and_payload this url data (options : Options U) net u :
  (exists tr u' r,
     get this url data options net u = Some (tr, u', r) /\
     transport_calls tr =
       attempts (count is_ajax tr)
         {| s_url := url; s_type := "GET"; s_data := QueryParams data;
            s_contentType := "application/json"; s_X_CSRFToken := csrfToken this;
            s_dataType := "json" |}) /\
  (exists tr u' r,
     post this url data options net u = Some (tr, u', r) /\
     transport_calls tr =
       attempts (count is_ajax tr)
         {| s_url := url; s_type := "POST"; s_data := JsonBody data;
            s_contentType := "application/json"; s_X_CSRFToken := csrfToken this;
            s_dataType := "json" |}) /\
  (forall method, method <> "GET" ->
     exists tr u' r,
       request this method url data options net u = Some (tr, u', r) /\
       transport_calls tr =
         attempts (count is_ajax tr)
           {| s_url := url; s_type := method; s_data := JsonBody data;
              s_contentType := "application/json"; s_X_CSRFToken := csrfToken this;
              s_dataType := "json" |}).
Proof.
  split; [|split].
  - exact (request_transport_calls this "GET" url data options net u).
  - exact (request_transport_calls this "POST" url data options net u).
  - intros method Hm.
    destruct (request_transport_calls this method url data options net u)
      as (tr & u' & r & Hreq & Hcalls).
    exists tr, u', r. split; [exact Hreq|]. rewrite Hcalls. unfold settings.
    apply String.eqb_neq in Hm. now rewrite Hm.
Qed.

End Verbs.

(* ===================================================================== *)
(** * Reading the cookie string *)
(* ===================================================================== *)

Section CookieFacts.
Import Ajax.

Lemma append_nil (b : string) : ("" ++ b = b)%string.
Proof. reflexivity. Qed.

Lemma append_cons c (a b : string) : (String c a ++ b = String c (a ++ b))%string.
Proof. reflexivity. Qed.

(** Unfold the appends whose left side is known. *)
Ltac appends := rewrite ?append_cons, ?append_nil in *.

Lemma append_assoc (a b c : string) : ((a ++ b) ++ c = a ++ (b ++ c))%string.
Proof. induction a as [|x a IH]; appends; [reflexivity | now rewrite IH]. Qed.

Lemma all_chars_app p (a b : string) :
  all_chars p (a ++ b)%string = (all_chars p a && all_chars p b)%bool.
Proof.
  induction a as [|x a IH]; appends; cbn; [reflexivity|].
  now rewrite IH, andb_assoc.
Qed.

Lemma all_chars_impl (p q : ascii -> bool) s :
  (forall c, p c = true -> q c = true) -> all_chars p s = true -> all_chars q s = true.
Proof.
  intros Hpq. induction s as [|c s IH]; cbn; [reflexivity|].
  intros H. apply andb_prop in H. destruct H as [Hc Hs].
  now rewrite (Hpq c Hc), IH.
Qed.

Lemma name_char_cookie_char c : name_char c = true -> cookie_char c = true.
Proof. unfold name_char. intros H. now apply andb_prop in H. Qed.

Lemma cookie_char_not c x :
  cookie_char x = false -> cookie_char c = true -> Ascii.eqb c x = false.
Proof.
  intros Hx Hc. destruct (Ascii.eqb_spec c x) as [->|]; [congruence | reflexivity].
Qed.

Lemma cookie_char_no_space c : cookie_char c = true -> is_space c = false.
Proof.
  unfold cookie_char, is_space, between. cbn zeta. intros H.
  repeat (apply andb_prop in H; destruct H as [H ?]).
  apply Nat.leb_le in H.
  destruct (Nat.eqb_spec (nat_of_ascii c) 32); [lia|]. cbn.
  destruct (Nat.leb_spec (nat_of_ascii c) 13); [lia|]. apply andb_false_r.
Qed.

(** ** [split] *)

Lemma split_no_sep sep s :
  all_chars (fun c => negb (Ascii.eqb c sep)) s = true -> split sep s = [s].
Proof.
  induction s as [|c s IH]; cbn; [reflexivity|].
  intros H. apply andb_prop in H. destruct H as [Hc Hs].
  apply negb_true_iff in Hc. now rewrite Hc, IH.
Qed.

Lemma split_app_sep sep a b :
  all_chars (fun c => negb (Ascii.eqb c sep)) a = true ->
  split sep (a ++ String sep b) = a :: split sep b.
Proof.
  induction a as [|c a IH]; appends; cbn.
  - intros _. now rewrite Ascii.eqb_refl.
  - intros H. apply andb_prop in H. destruct H as [Hc Ha].
    apply negb_true_iff in Hc. now rewrite Hc, IH.
Qed.

(** ** [trim] *)

Lemma trim_end_visible s :
  all_chars (fun c => negb (is_space c)) s = true -> trim_end s = s.
Proof.
  induction s as [|c s IH]; cbn; [reflexivity|].
  intros H. apply andb_prop in H. destruct H as [Hc Hs].
  apply negb_true_iff in Hc. rewrite IH by assumption.
  destruct s; [now rewrite Hc | reflexivity].
Qed.

Lemma trim_visible s :
  all_chars (fun c => negb (is_space c)) s = true ->
  trim s = s /\ trim (String " " s) = s.
Proof.
  intros H. unfold trim. cbn [trim_start]. change (is_space " ") with true. cbn.
  assert (Hs : trim_start s = s).
  { destruct s as [|c s]; [reflexivity|]. cbn in *.
    apply andb_prop in H. destruct H as [Hc _].
    apply negb_true_iff in Hc. now rewrite Hc. }
  rewrite Hs. split; now apply trim_end_visible.
Qed.

(** ** [indexOf] and [substring] *)

Lemma prefix_empty s : String.prefix "" s = true.
Proof. now destruct s. Qed.

Lemma prefix_cons a b (s1 s2 : string) :
  String.prefix (String a s1) (String b s2)
  = if Ascii.eqb a b then String.prefix s1 s2 else false.
Proof.
  cbn [String.prefix].
  destruct (ascii_dec a b), (Ascii.eqb_spec a b); congruence.
Qed.

(** An entry [n=v] starts with [name=] exactly when [n] is [name]. *)
Lemma prefix_pair name : forall n v,
  all_chars (fun c => negb (Ascii.eqb c "=")) name = true ->
  all_chars (fun c => negb (Ascii.eqb c "=")) n = true ->
  index_of_is_0 (name ++ "=") (n ++ "=" ++ v) = String.eqb n name.
Proof.
  unfold index_of_is_0.
  induction name as [|a name IH]; intros [|c n] v Hname Hn; appends;
    cbn [all_chars String.eqb] in *; rewrite prefix_cons.
  - rewrite Ascii.eqb_refl. apply prefix_empty.
  - apply andb_prop in Hn. destruct Hn as [Hc _]. apply negb_true_iff in Hc.
    now rewrite Ascii.eqb_sym, Hc.
  - apply andb_prop in Hname. destruct Hname as [Ha _]. apply negb_true_iff in Ha.
    now rewrite Ha.
  - apply andb_prop in Hname. destruct Hname as [_ Hname].
    apply andb_prop in Hn. destruct Hn as [_ Hn].
    rewrite (Ascii.eqb_sym c a).
    destruct (Ascii.eqb a c); [now apply IH | reflexivity].
Qed.

Lemma substring_all s : substring 0 (String.length s) s = s.
Proof. induction s as [|c s IH]; cbn; [reflexivity | now rewrite IH]. Qed.

Lemma substring_from_app a b : substring_from (String.length a) (a ++ b) = b.
Proof.
  unfold substring_from.
  induction a as [|c a IH]; appends; cbn.
  - rewrite Nat.sub_0_r. apply substring_all.
  - exact IH.
Qed.

(** ** The loop over the cookies *)

Lemma holds_percent_app a b :
  holds_percent (a ++ b)%string = (holds_percent a || holds_percent b)%bool.
Proof.
  induction a as [|c a IH]; appends; cbn; [reflexivity|]. now rewrite IH, orb_assoc.
Qed.

Lemma cookie_chars_no_percent s : all_chars cookie_char s = true -> holds_percent s = false.
Proof.
  induction s as [|c s IH]; cbn; [reflexivity|].
  intros H. apply andb_prop in H. destruct H as [Hc Hs].
  now rewrite IH, (cookie_char_not c "%" eq_refl Hc).
Qed.

Lemma document_cookie_no_percent jar :
  well_formed_jar jar -> holds_percent (document_cookie jar) = false.
Proof.
  induction 1 as [|[n v] rest [Hn Hv] _ IH]; [reflexivity|].
  cbn [document_cookie fst snd] in *.
  apply (all_chars_impl _ _ _ name_char_cookie_char) in Hn.
  apply cookie_chars_no_percent in Hn, Hv.
  destruct rest; rewrite !holds_percent_app, ?IH, Hn, Hv; reflexivity.
Qed.

(** The loop of [getCsrfToken] over the pieces of [document.cookie]:
    [lead] is the space that follows a semicolon. *)
Lemma find_cookie_in_jar name jar : forall lead,
  lead = "" \/ lead = " " ->
  all_chars name_char name = true ->
  well_formed_jar jar ->
  find_cookie (name ++ "=") (split ";" (lead ++ document_cookie jar))
  = match cookie_value name jar with
    | Some v => v
    | None => ""
    end.
Proof.
  intros lead Hlead Hname Hjar. revert lead Hlead.
  assert (Hno_eq : forall s, all_chars name_char s = true ->
            all_chars (fun c => negb (Ascii.eqb c "=")) s = true).
  { intros s. apply all_chars_impl. intros c Hc. unfold name_char in Hc.
    apply andb_prop in Hc. tauto. }
  assert (Hno_semi : forall s, all_chars cookie_char s = true ->
            all_chars (fun c => negb (Ascii.eqb c ";")) s = true).
  { intros s. apply all_chars_impl. intros c Hc.
    now rewrite (cookie_char_not c ";" eq_refl Hc). }
  assert (Hvisible : forall s, all_chars cookie_char s = true ->
            all_chars (fun c => negb (is_space c)) s = true).
  { intros s. apply all_chars_impl. intros c Hc.
    now rewrite (cookie_char_no_space c Hc). }
  induction Hjar as [|[n v] rest [Hn Hv] _ IH]; intros lead Hlead.
  { destruct Hlead as [-> | ->]; cbn; now destruct name. }
  cbn [document_cookie cookie_value fst snd] in *.
  pose proof (all_chars_impl _ _ _ name_char_cookie_char Hn) as Hn'.
  assert (Hpair : all_chars cookie_char (n ++ "=" ++ v) = true).
  { now rewrite !all_chars_app, Hn', Hv. }
  assert (Htrim : trim (lead ++ n ++ "=" ++ v) = (n ++ "=" ++ v)%string).
  { destruct (trim_visible _ (Hvisible _ Hpair)) as [H0 H1].
    destruct Hlead as [-> | ->]; assumption. }
  assert (Hsemi : all_chars (fun c => negb (Ascii.eqb c ";")) (lead ++ n ++ "=" ++ v) = true).
  { rewrite all_chars_app, (Hno_semi _ Hpair). now destruct Hlead as [-> | ->]. }
  assert (Hvalue : substring_from (String.length (name ++ "=")) (name ++ "=" ++ v) = v).
  { rewrite <- append_assoc. apply substring_from_app. }
  destruct rest as [|c2 rest].
  - rewrite split_no_sep by assumption. cbn [find_cookie]. rewrite Htrim.
    rewrite prefix_pair by auto.
    destruct (String.eqb_spec n name) as [->|]; [exact Hvalue | reflexivity].
  - replace (lead ++ n ++ "=" ++ v ++ "; " ++ document_cookie (c2 :: rest))%string
      with ((lead ++ n ++ "=" ++ v) ++ String ";" (" " ++ document_cookie (c2 :: rest)))%string
      by (now rewrite !append_assoc).
    rewrite split_app_sep by assumption. cbn [find_cookie]. rewrite Htrim.
    rewrite prefix_pair by auto.
    destruct (String.eqb_spec n name) as [->|]; [exact Hvalue|].
    apply IH. now right.
Qed.

(** X6.  Round trip through the cookie string.  For cookies whose names and
    values are made of visible ASCII characters other than [;] and [%]
    (names without [=]), listed as the browser lists them, [getCsrfToken]
    returns the value of the first cookie named [csrftoken], and the empty
    string when there is none; the constructor stores it. *)
Theorem token_is_value_of_first_csrftoken_cookie hopts jar :
  well_formed_jar jar ->
  getCsrfToken (document_cookie jar)
  = Some match cookie_value "csrftoken" jar with
         | Some v => v
         | None => ""
         end /\
  exists h, new_AjaxHandler hopts (document_cookie jar) = Some h /\
            csrfToken h = match cookie_value "csrftoken" jar with
                          | Some v => v
                          | None => ""
                          end.
Proof.
  intros Hjar.
  assert (Htoken : getCsrfToken (document_cookie jar)
                   = Some match cookie_value "csrftoken" jar with
                          | Some v => v
                          | None => ""
                          end).
  { unfold getCsrfToken.
    rewrite decodeURIComponent_plain by now apply document_cookie_no_percent.
    f_equal. apply (find_cookie_in_jar "csrftoken" jar ""); auto. }
  split; [exact Htoken|].
  unfold new_AjaxHandler. rewrite Htoken. eexists. split; reflexivity.
Qed.

(** ** Escapes that are not well formed *)

Lemma decodeURIComponent_bad_escape pre rest :
  holds_percent pre = false -> starts_with_hex_pair rest = false ->
  decodeURIComponent (pre ++ String "%" rest) = None.
Proof.
  unfold decodeURIComponent. intros Hpre Hrest.
  induction pre as [|c pre IH]; appends; cbn [tokens].
  - rewrite Ascii.eqb_refl.
    destruct rest as [|h [|l rest]]; try reflexivity.
    cbn in Hrest. now destruct (hex_value h), (hex_value l).
  - cbn in Hpre. apply orb_false_elim in Hpre. destruct Hpre as [Hc Hpre].
    rewrite Hc. cbn [decode_tokens]. now rewrite IH.
Qed.

End CookieFacts.

Section StartupFacts.
Import Ajax Binder.

(** X7.  A percent sign that two hexadecimal digits do not follow makes
    [decodeURIComponent] raise, whatever the cookies are otherwise: the
    constructor of the handler raises, no binder is created, and the
    document-ready handler raises before it gets to create the notification
    container. *)
Theorem malformed_escape_stops_the_page hopts pre rest d :
  holds_percent pre = false ->
  starts_with_hex_pair rest = false ->
  getCsrfToken (pre ++ String "%" rest) = None /\
  new_AjaxHandler hopts (pre ++ String "%" rest) = None /\
  new_GlobalEvents (pre ++ String "%" rest) = None /\
  document_ready (pre ++ String "%" rest) d = None.
Proof.
  intros Hpre Hrest.
  pose proof (decodeURIComponent_bad_escape pre rest Hpre Hrest) as Hdec.
  unfold document_ready, new_GlobalEvents, new_AjaxHandler, getCsrfToken.
  now rewrite Hdec.
Qed.

End StartupFacts.

(* ===================================================================== *)
(** * Loading marker, buttons and form fields *)
(* ===================================================================== *)

Section MarkerFacts.
Import UI.

(** ** Selectors *)




(** ** Updates in a row *)


Lemma update_all_compose p f g d :
  (forall n, p n = true -> p (f n) = true) ->
  update_all p g (update_all p f d) = update_all p (fun n => g (f n)) d.
Proof.
  intros Hp. unfold update_all. rewrite List.map_map. apply List.map_ext.
  intros n. destruct (p n) eqn:E; [now rewrite (Hp n E) | now rewrite E].
Qed.



Lemma update_all_ext p f g d :
  (forall n, In n d -> p n = true -> f n = g n) -> update_all p f d = update_all p g d.
Proof.
  intros H. unfold update_all. apply List.map_ext_in. intros n Hn.
  destruct (p n) eqn:E; [now apply H | reflexivity].
Qed.




(** ** Classes *)










End MarkerFacts.

Section FormFacts.
Import UI Binder.

Lemma serializeForm_lookup formArray name :
  name <> "__proto__" -> serializeForm formArray !! name = last_value name formArray.
Proof.
  intros Hname. unfold serializeForm. rewrite fold_set_prop_lookup by assumption.
  destruct (last_value name formArray); [reflexivity | apply lookup_empty].
Qed.

Lemma serializeForm_lookup_proto formArray :
  serializeForm formArray !! "__proto__" = None.
Proof. unfold serializeForm. rewrite fold_set_prop_lookup_proto. apply lookup_empty. Qed.

Lemma last_value_In name formArray value :
  last_value name formArray = Some value -> In (name, value) formArray.
Proof.
  induction formArray as [|[k v] rest IH]; cbn; [discriminate|].
  destruct (last_value name rest) as [v'|].
  - intros [= <-]. right. now apply IH.
  - destruct (String.eqb_spec k name) as [->|]; [|discriminate].
    intros [= <-]. now left.
Qed.

(** With distinct names, the value of the last control of a name is the
    value of the only control of that name. *)
Lemma last_value_only name formArray value :
  NoDup (map fst formArray) -> In (name, value) formArray ->
  last_value name formArray = Some value.
Proof.
  induction formArray as [|[k v] rest IH]; cbn; [tauto|].
  intros Hnd Hin. apply NoDup_cons in Hnd. destruct Hnd as [Hk Hnd].
  destruct Hin as [[= -> ->]|Hin].
  - destruct (last_value name rest) as [v'|] eqn:E.
    + apply last_value_In in E. exfalso. apply Hk.
      apply list_elem_of_In. apply List.in_map_iff. now exists (name, v').
    + now rewrite String.eqb_refl.
  - now rewrite (IH Hnd Hin).
Qed.

(** X10.  Round trip through [serializeForm].  For a form whose controls have
    distinct names, none of them [__proto__], the object holds exactly the
    controls of the form: each control is an entry, each entry is a control,
    and there are as many entries as controls. *)
Theorem serializeForm_keeps_distinct_fields (formArray : list (string * string)) :
  NoDup (map fst formArray) ->
  ~ In "__proto__" (map fst formArray) ->
  (forall name value,
     In (name, value) formArray <-> serializeForm formArray !! name = Some value) /\
  map_to_list (serializeForm formArray) ≡ₚ formArray /\
  size (serializeForm formArray) = length formArray.
Proof.
  intros Hnd Hproto.
  assert (Hlook : forall name value,
            In (name, value) formArray <-> serializeForm formArray !! name = Some value).
  { intros name value. split.
    - intros Hin. rewrite serializeForm_lookup.
      + now apply last_value_only.
      + intros ->. apply Hproto. apply List.in_map_iff. now exists ("__proto__", value).
    - intros Hl. destruct (String.eqb_spec name "__proto__") as [->|Hne].
      + rewrite serializeForm_lookup_proto in Hl. discriminate.
      + rewrite serializeForm_lookup in Hl by assumption. now apply last_value_In. }
  assert (Hmap : serializeForm formArray = list_to_map formArray).
  { apply map_eq. intros name. apply option_eq. intros value.
    rewrite <- Hlook, <- elem_of_list_to_map by exact Hnd.
    symmetry. apply list_elem_of_In. }
  assert (Hperm : map_to_list (serializeForm formArray) ≡ₚ formArray).
  { rewrite Hmap. now apply map_to_list_to_map. }
  split; [exact Hlook|]. split; [exact Hperm|].
  rewrite <- length_map_to_list. now apply Permutation_length.
Qed.

(** X11.  [enableButton] after [disableButton] does not restore what was: it
    leaves every submit button of the form enabled, whether it was disabled
    before or not.  Both change the [disabled] attribute of the submit
    buttons of the form and nothing else. *)
Theorem buttons_end_enabled (form : Form) d :
  enableButton (find_submit_buttons form) (disableButton (find_submit_buttons form) d)
  = enableButton (find_submit_buttons form) d /\
  Forall2 (fun n n' => n' = if find_submit_buttons form n then attr_disabled true n else n)
    d (disableButton (find_submit_buttons form) d) /\
  Forall2 (fun n n' => n' = if find_submit_buttons form n then attr_disabled false n else n)
    d (enableButton (find_submit_buttons form) (disableButton (find_submit_buttons form) d)).
Proof.
  assert (Hall : forall (p : Node -> bool) f,
            Forall2 (fun n n' => n' = if p n then f n else n) d (update_all p f d)).
  { intros p f. unfold update_all.
    induction d as [|n d IH]; cbn [map]; [constructor|].
    constructor; [reflexivity | exact IH]. }
  assert (H : enableButton (find_submit_buttons form)
                (disableButton (find_submit_buttons form) d)
              = enableButton (find_submit_buttons form) d).
  { unfold enableButton, disableButton. rewrite update_all_compose by auto.
    now apply update_all_ext. }
  split; [exact H|]. rewrite H. split; apply Hall.
Qed.

End FormFacts.

(* ===================================================================== *)
(** * The page after a listener has run *)
(* ===================================================================== *)

Section PageFacts.
Import UI Binder.

Variable target : string.
Variable buttons : Node -> bool.

(** ** Element by element *)












(** ** The notification container *)




(** ** Without new content *)




(** ** The elements of the target *)




End PageFacts.

(* ===================================================================== *)
(** * The listeners *)
(* ===================================================================== *)

Section ListenerFacts.
Import Ajax UI Binder.



(** ** The callbacks *)








(** ** A call that is answered *)



End ListenerFacts.

Section ListenerRuns.
Import Ajax UI Binder.







(** ** A transport that is down *)




(** ** Whatever the transport does *)



End ListenerRuns.

(* ===================================================================== *)
(** * The document-ready handler *)
(* ===================================================================== *)

Section ReadyTwice.
Import Ajax UI Binder.




End ReadyTwice.

(* ===================================================================== *)
(** * Further worked runs *)
(* ===================================================================== *)

Section FurtherRuns.
Import Ajax UI Binder Examples.



(** Three cookies, the second of them the token. *)
Lemma token_is_value_of_first_csrftoken_cookie_witness :
  well_formed_jar jar /\
  document_cookie jar = "sessionid=abc; csrftoken=tok123; theme=dark" /\
  getCsrfToken "sessionid=abc; csrftoken=tok123; theme=dark" = Some "tok123".
Proof.
  assert (Hjar : well_formed_jar jar) by (repeat constructor).
  split; [exact Hjar|]. split; [reflexivity|].
  exact (proj1 (token_is_value_of_first_csrftoken_cookie no_options jar Hjar)).
Defined.

(** A cookie whose value ends in a percent sign. *)
Lemma malformed_escape_stops_the_page_witness :
  holds_percent "discount=50" = false /\
  starts_with_hex_pair "" = false /\
  new_AjaxHandler no_options "discount=50%" = None /\
  document_ready "discount=50%" page = None.
Proof.
  split; [reflexivity|]. split; [reflexivity|].
  destruct (malformed_escape_stops_the_page no_options "discount=50" "" page
              eq_refl eq_refl) as (_ & Hh & _ & Hready).
  split; [exact Hh | exact Hready].
Defined.

(** A form with two controls of different names. *)
Lemma serializeForm_keeps_distinct_fields_witness :
  NoDup (map fst [("name", "Ana"); ("tag", "b")]) /\
  ~ In "__proto__" (map fst [("name", "Ana"); ("tag", "b")]) /\
  size (serializeForm [("name", "Ana"); ("tag", "b")]) = 2%nat /\
  serializeForm [("name", "Ana"); ("tag", "b")] !! "tag" = Some "b".
Proof.
  assert (Hnd : NoDup (map fst [("name", "Ana"); ("tag", "b")])).
  { cbn. repeat (constructor; [cbn; rewrite ?list_elem_of_In; cbn; intuition congruence|]).
    constructor. }
  assert (Hproto : ~ In "__proto__" (map fst [("name", "Ana"); ("tag", "b")])).
  { cbn. intuition congruence. }
  split; [exact Hnd|]. split; [exact Hproto|].
  destruct (serializeForm_keeps_distinct_fields _ Hnd Hproto) as (Hlook & _ & Hsize).
  split; [exact Hsize|]. apply Hlook. cbn. auto.
Defined.






End FurtherRuns.
